(** * Infrastructure projects dashboard: the filter-and-aggregate engine

    A shallow embedding of [src/app.py].  The program is one Streamlit
    script: [load_data] reads a sheet into a pandas [DataFrame], and [main]
    narrows it by four sidebar selections and derives metrics, grouped
    counts and cross-tabulations from the narrowed frame.

    Modelling choices, stated once:
    - a frame is the list of its rows, in index order;
    - a text cell is [option string]: [None] is the empty cell that
      [read_excel] turns into NaN; strings are compared byte by byte, which
      on UTF-8 text is Python's code-point order;
    - every text column, the year included, holds labels that are only
      compared and ordered, never computed with;
    - the cost column holds exact integers ([option Z], [None] for NaN):
      floating-point rounding is outside the model;
    - [sort_values] is called with pandas' default [kind='quicksort'], which
      fixes the order of the keys but not the order among equal keys, so it
      is a relation between a frame and its admissible orderings. *)

From Stdlib Require Import List String Ascii ZArith Bool Arith Lia.
From Stdlib Require Import Permutation Sorted OrderedTypeEx.
Import ListNotations.

Local Open Scope string_scope.

(** ** Cells, rows and the table ([load_data], lines 15-40) *)

Definition cell := option string.

Definition cell_eq_dec (a b : cell) : {a = b} + {a <> b}.
Proof. decide equality. apply string_dec. Defined.

(** One row of the sheet, with the thirteen columns of [load_data]. *)
Record project := {
  s_no : Z;
  project_name : cell;
  total_project_cost : option Z;
  sector : cell;
  sub_sector : cell;
  project_authority : cell;
  year : cell;
  location : cell;
  status : cell;
  resource_management : cell;
  logistics : cell;
  machinery_mobilization : cell;
  work_force : cell
}.

Definition table := list project.

(** The text columns, by which the script filters and groups. *)
Inductive column :=
| ProjectName | Sector | SubSector | ProjectAuthority | Year | Location
| Status | ResourceManagement | Logistics | MachineryMobilization | WorkForce.


(** [df[column]] on one row. *)
Definition col (c : column) (r : project) : cell :=
  match c with
  | ProjectName => project_name r
  | Sector => sector r
  | SubSector => sub_sector r
  | ProjectAuthority => project_authority r
  | Year => year r
  | Location => location r
  | Status => status r
  | ResourceManagement => resource_management r
  | Logistics => logistics r
  | MachineryMobilization => machinery_mobilization r
  | WorkForce => work_force r
  end.

(** [df[column]] as a series. *)
Definition series (c : column) (t : table) : list cell := map (col c) t.

(** ** pandas and Python primitives used by [main] *)

(** [series == scalar], element-wise: NaN is equal to nothing. *)
Definition eq_scalar (x s : cell) : bool :=
  match x, s with
  | Some a, Some b => String.eqb a b
  | _, _ => false
  end.

(** Python's [selected != 'All']; a NaN selection differs from ['All']. *)
Definition ne_All (s : cell) : bool :=
  match s with
  | Some a => negb (String.eqb a "All")
  | None => true
  end.

(** [frame[frame[column] == value]]: boolean-mask selection. *)
Definition mask (c : column) (value : cell) (t : table) : table :=
  filter (fun r => eq_scalar (col c r) value) t.

(** ** The sidebar selections and the narrowing (lines 57-95) *)

Record selection := {
  selected_location : cell;
  selected_status : cell;
  selected_sector : cell;
  selected_year : cell
}.

(** The two frames [main] holds while it filters: the loaded [df] and the
    working copy [filtered_df]. *)
Record frames := { df : table; filtered_df : table }.

(** One [if selected != 'All': filtered_df = filtered_df[...]] statement. *)
Definition narrow (c : column) (value : cell) (st : frames) : frames :=
  if ne_All value
  then {| df := df st; filtered_df := mask c value (filtered_df st) |}
  else st.

(** Lines 86-95: [filtered_df = df.copy()] and the four statements. *)
Definition filter_frames (d : table) (F : selection) : frames :=
  let st0 := {| df := d; filtered_df := d |} in
  let st1 := narrow Location (selected_location F) st0 in
  let st2 := narrow Status (selected_status F) st1 in
  let st3 := narrow Sector (selected_sector F) st2 in
  narrow Year (selected_year F) st3.

(** The filtered view: [filtered_df] after line 95. *)
Definition applyFilters (d : table) (F : selection) : table :=
  filtered_df (filter_frames d F).

(** The columns that have a select box, in the order of the sidebar. *)
Definition filterable : list column := [Location; Status; Sector; Year].

(** The value selected for a column; a column without a select box is
    never constrained. *)
Definition selected (F : selection) (c : column) : cell :=
  match c with
  | Location => selected_location F
  | Status => selected_status F
  | Sector => selected_sector F
  | Year => selected_year F
  | _ => Some "All"
  end.

(** The filter set read as the spec does: an ordered collection of
    (column, selected value) predicates. *)
Definition predicates (F : selection) : list (column * cell) :=
  map (fun c => (c, selected F c)) filterable.

(** A predicate is active when its selected value is not "All". *)
Definition active (p : column * cell) : Prop := snd p <> Some "All".

(** A row meets a predicate when its cell in that column holds the selected
    value (an empty cell holds none). *)
Definition meets (r : project) (p : column * cell) : Prop :=
  exists v, snd p = Some v /\ col (fst p) r = Some v.

Definition satisfies (F : selection) (r : project) : Prop :=
  forall p, In p (predicates F) -> active p -> meets r p.

Definition satisfiesb (F : selection) (r : project) : bool :=
  forallb (fun p => implb (ne_All (snd p)) (eq_scalar (col (fst p) r) (snd p)))
          (predicates F).



(** ** Python's [sorted] and pandas' [unique] (line 54) *)

Inductive exception := TypeError.

Inductive result (A : Type) :=
| Ok (a : A)
| Raise (e : exception).
Arguments Ok {A} a.
Arguments Raise {A} e.

(** [Series.unique()]: the distinct values in order of first appearance;
    all NaN cells count as one value. *)
Fixpoint unique {A} (eq_dec : forall a b : A, {a = b} + {a <> b})
         (l : list A) : list A :=
  match l with
  | [] => []
  | x :: t => x :: filter (fun y => if eq_dec x y then false else true)
                          (unique eq_dec t)
  end.

(** [dropna]: the cells that hold a value. *)
Fixpoint dropna {A} (l : list (option A)) : list A :=
  match l with
  | [] => []
  | Some a :: t => a :: dropna t
  | None :: t => dropna t
  end.

Definition isna {A} (x : option A) : bool :=
  match x with None => true | Some _ => false end.

Definition notna {A} (x : option A) : bool := negb (isna x).

(** A stable ascending sort: each element is put before the first element
    of the sorted tail that is not below it. *)
Fixpoint insert_by {A} (leb : A -> A -> bool) (x : A) (l : list A) : list A :=
  match l with
  | [] => [x]
  | y :: t => if leb x y then x :: l else y :: insert_by leb x t
  end.

Fixpoint sort_by {A} (leb : A -> A -> bool) (l : list A) : list A :=
  match l with
  | [] => []
  | x :: t => insert_by leb x (sort_by leb t)
  end.

(** Python's [sorted] on the output of [unique().tolist()], which holds at
    most one NaN.  Comparing the float NaN with a [str] raises [TypeError];
    a list without strings is returned as it is; a list of strings is put in
    ascending order. *)
Definition sorted (l : list cell) : result (list cell) :=
  if existsb isna l && existsb notna l then Raise TypeError
  else if existsb isna l then Ok l
  else Ok (map Some (sort_by String.leb (dropna l))).

(** Ascending order on strings, as [sorted] leaves them. *)
Definition ascending : list string -> Prop :=
  Sorted (fun a b => String.leb a b = true).


(** Lines 53-55. *)
Definition get_filter_options (d : table) (c : column) : result (list cell) :=
  match sorted (unique cell_eq_dec (series c d)) with
  | Ok values => Ok (Some "All" :: values)
  | Raise e => Raise e
  end.




(** ** The three metrics (lines 100-106) *)

(** [Series.sum()] with the default [skipna=True]. *)
Definition sum_skipna (l : list (option Z)) : Z :=
  fold_left Z.add (dropna l) 0%Z.

Record metrics := {
  count : nat;
  totalCostSum : Z;
  distinctSectorCount : nat
}.

(** Lines 101, 103 and 106 on the view [v]. *)
Definition computeMetrics (v : table) : metrics :=
  {| count := List.length v;
     totalCostSum := sum_skipna (map total_project_cost v);
     distinctSectorCount := List.length (unique cell_eq_dec (series Sector v)) |}.


(** ** Grouping (lines 126-130, 156, 171) *)

(** The group keys of [groupby(column)]: the values present in the column,
    in ascending order; rows whose key is NaN belong to no group. *)
Definition group_keys (c : column) (v : table) : list string :=
  sort_by String.leb (unique string_dec (dropna (series c v))).

(** [groupby(column).size()]. *)
Definition groupby_size (c : column) (v : table) : list (string * nat) :=
  map (fun k => (k, List.length (mask c (Some k) v))) (group_keys c v).

(** [groupby(column)['Total Project Cost (In Rs.Crore)'].sum()]. *)
Definition groupby_sum (c : column) (v : table) : list (string * Z) :=
  map (fun k => (k, sum_skipna (map total_project_cost (mask c (Some k) v))))
      (group_keys c v).

(** [sort_values(..., ascending=False)] with the default sorting kind: the
    result holds the same entries, keys non-increasing. *)
Definition sort_values_desc {A} (key : A -> nat) (l out : list A) : Prop :=
  Permutation l out /\ Sorted (fun a b => key b <= key a) out.

(** Lines 126-130: the count of projects by location, largest first. *)
Definition location_data (v : table) (out : list (string * nat)) : Prop :=
  sort_values_desc snd (groupby_size Location v) out.

(** The grouped count over any column, largest first. *)
Definition computeGroupedCount (c : column) (v : table)
           (out : list (string * nat)) : Prop :=
  sort_values_desc snd (groupby_size c v) out.

(** [Series.value_counts()]: NaN is left out, the values are counted in
    order of appearance and the counts are put largest first. *)
Definition value_counts (c : column) (v : table)
           (out : list (string * nat)) : Prop :=
  sort_values_desc snd
    (map (fun k => (k, List.length (mask c (Some k) v)))
         (unique string_dec (dropna (series c v)))) out.

(** ** Cross-tabulation (lines 181-183 and the three copies) *)

(** A frame of counts: each row is its index label and its cells by column
    name, in column order. *)
Definition count_row := (string * list (string * nat))%type.

(** The rows [pd.crosstab] keeps: those with a value in both columns. *)
Definition both_present (rows cols : column) (r : project) : bool :=
  notna (col rows r) && notna (col cols r).

(** [pd.crosstab(v[rows], v[cols])]: the rows of [v] where both cells are
    present are counted by pair of labels; labels come in ascending order
    and a pair that does not occur counts 0. *)
Definition crosstab (rows cols : column) (v : table) : list count_row :=
  let v' := filter (both_present rows cols) v in
  map (fun l =>
         (l, map (fun k => (k, List.length (mask cols (Some k) (mask rows (Some l) v'))))
                 (group_keys cols v')))
      (group_keys rows v').

(** [frame.sum(axis=1)] on one row. *)
Definition sum_axis1 (cells : list (string * nat)) : nat :=
  list_sum (map snd cells).

(** [frame[name] = values] on one row: the column [name] is overwritten if
    the frame has it and appended as the last column if not. *)
Fixpoint set_cell (name : string) (x : nat) (cells : list (string * nat))
  : list (string * nat) :=
  match cells with
  | [] => [(name, x)]
  | (k, y) :: t =>
      if String.eqb k name then (k, x) :: t else (k, y) :: set_cell name x t
  end.

(** [frame[name]] on one row. *)
Fixpoint get_cell (name : string) (cells : list (string * nat)) : option nat :=
  match cells with
  | [] => None
  | (k, y) :: t => if String.eqb k name then Some y else get_cell name t
  end.

(** Line 182: [frame['Total Projects'] = frame.sum(axis=1)]. *)
Definition add_total (f : list count_row) : list count_row :=
  map (fun row => (fst row, set_cell "Total Projects" (sum_axis1 (snd row))
                                     (snd row))) f.

Definition total_projects (row : count_row) : nat :=
  match get_cell "Total Projects" (snd row) with
  | Some n => n
  | None => 0
  end.

(** Lines 181-183: cross-tabulate, add the total column, sort by it. *)
Definition computeCrossTab (rows cols : column) (v : table)
           (out : list count_row) : Prop :=
  sort_values_desc total_projects (add_total (crosstab rows cols v)) out.

(** Line 171 and its three copies. *)
Definition resource_counts := value_counts ResourceManagement.
Definition logistics_counts := value_counts Logistics.
Definition machinery_counts := value_counts MachineryMobilization.
Definition workforce_counts := value_counts WorkForce.

Definition resource_location := computeCrossTab Location ResourceManagement.
Definition logistics_location := computeCrossTab Location Logistics.
Definition machinery_location := computeCrossTab Location MachineryMobilization.
Definition workforce_location := computeCrossTab Location WorkForce.

(** ** Sample data

    The table of the spec's end-to-end example (five projects, all in the
    sector "Roads"), and small tables with empty cells and with the label
    "All" as a value. *)

Definition row (n : Z) (cost : option Z) (sec yr loc st rm : cell) : project :=
  {| s_no := n; project_name := Some "Project"; total_project_cost := cost;
     sector := sec; sub_sector := Some "Highways";
     project_authority := Some "NHAI"; year := yr; location := loc;
     status := st; resource_management := rm; logistics := Some "Medium";
     machinery_mobilization := Some "Medium"; work_force := Some "Medium" |}.

Definition example_table : table :=
  [ row 1 (Some 10%Z) (Some "Roads") (Some "2020") (Some "A") (Some "Done")
        (Some "High");
    row 2 (Some 20%Z) (Some "Roads") (Some "2020") (Some "A") (Some "Done")
        (Some "Low");
    row 3 (Some 30%Z) (Some "Roads") (Some "2021") (Some "B") (Some "Pending")
        (Some "High");
    row 4 (Some 5%Z) (Some "Roads") (Some "2021") (Some "B") (Some "Done")
        (Some "High");
    row 5 (Some 15%Z) (Some "Roads") (Some "2022") (Some "C") (Some "Pending")
        (Some "Low") ].

Definition no_selection : selection :=
  {| selected_location := Some "All"; selected_status := Some "All";
     selected_sector := Some "All"; selected_year := Some "All" |}.

Definition select_status (value : string) : selection :=
  {| selected_location := Some "All"; selected_status := Some value;
     selected_sector := Some "All"; selected_year := Some "All" |}.

Definition select_location (value : string) : selection :=
  {| selected_location := Some value; selected_status := Some "All";
     selected_sector := Some "All"; selected_year := Some "All" |}.

(** A view whose sector cells are "Roads", "roads" and empty, one cost
    missing. *)
Definition sector_view : table :=
  [ row 1 (Some 10%Z) (Some "Roads") (Some "2020") (Some "A") (Some "Done")
        (Some "High");
    row 2 None (Some "roads") (Some "2020") (Some "A") (Some "Done")
        (Some "Low");
    row 3 (Some 7%Z) None (Some "2021") (Some "B") (Some "Done")
        (Some "High");
    row 4 (Some 1%Z) (Some "Roads") (Some "2021") (Some "B") (Some "Done")
        (Some "High") ].

(** A one-row table whose location cell is empty. *)
Definition no_location_table : table :=
  [ row 1 (Some 10%Z) (Some "Roads") (Some "2020") None (Some "Done")
        (Some "High") ].

(** A table where one project has no resource-management entry. *)
Definition no_resource_table : table :=
  [ row 1 (Some 10%Z) (Some "Roads") (Some "2020") (Some "Delhi")
        (Some "Done") (Some "High");
    row 2 (Some 20%Z) (Some "Roads") (Some "2020") (Some "Pune")
        (Some "Done") None ].




(** ** One run of the sidebar (lines 57-83) *)

Definition bind {A B} (m : result A) (f : A -> result B) : result B :=
  match m with
  | Ok a => f a
  | Raise e => Raise e
  end.

Record option_lists := {
  location_list : list cell;
  status_list : list cell;
  sector_list : list cell;
  year_list : list cell
}.

(** The four calls of [get_filter_options] in the order [main] makes them;
    the first one that raises ends the run. *)
Definition sidebar_run (d : table) : result option_lists :=
  bind (get_filter_options d Location) (fun lo =>
  bind (get_filter_options d Status) (fun st =>
  bind (get_filter_options d Sector) (fun se =>
  bind (get_filter_options d Year) (fun ye =>
  Ok {| location_list := lo; status_list := st;
        sector_list := se; year_list := ye |})))).

(** [st.sidebar.selectbox(..., options=..., index=i)] before the user has
    chosen: the option at [index], and [None] when there are no options. *)
Definition selectbox (options : list cell) (index : nat) : cell :=
  nth index options None.

(** The selections of the first run: every select box is at [index=0]. *)
Definition initial_selection (d : table) : result selection :=
  bind (sidebar_run d) (fun o =>
  Ok {| selected_location := selectbox (location_list o) 0;
        selected_status := selectbox (status_list o) 0;
        selected_sector := selectbox (sector_list o) 0;
        selected_year := selectbox (year_list o) 0 |}).

(** The user picks [value] in the select box of column [c]. *)
Definition set_selected (c : column) (value : cell) (F : selection)
  : selection :=
  match c with
  | Location =>
      {| selected_location := value; selected_status := selected_status F;
         selected_sector := selected_sector F;
         selected_year := selected_year F |}
  | Status =>
      {| selected_location := selected_location F; selected_status := value;
         selected_sector := selected_sector F;
         selected_year := selected_year F |}
  | Sector =>
      {| selected_location := selected_location F;
         selected_status := selected_status F; selected_sector := value;
         selected_year := selected_year F |}
  | Year =>
      {| selected_location := selected_location F;
         selected_status := selected_status F;
         selected_sector := selected_sector F; selected_year := value |}
  | _ => F
  end.



(** The count a frame of counts shows for column [name] in one row, 0 when
    the frame has no such column. *)
Definition cell_count (name : string) (row : count_row) : nat :=
  match get_cell name (snd row) with
  | Some n => n
  | None => 0
  end.

(** A table whose sector column is empty throughout. *)
Definition no_sector_table : table :=
  [ row 1 (Some 10%Z) None (Some "2020") (Some "Delhi") (Some "Done")
        (Some "High");
    row 2 (Some 20%Z) None (Some "2021") (Some "Pune") (Some "Pending")
        (Some "Low") ].

(** ** Tactics for concrete instances *)

(** Membership in [filterable]. *)
Ltac in_filterable := simpl; tauto.

(** Concrete instances of [sort_values_desc]: the entries are the same and
    the keys are non-increasing. *)
Ltac sorted_instance :=
  split;
  [ vm_compute; repeat (apply perm_skip || apply perm_nil);
    try apply Permutation_refl
  | repeat constructor ].

(** ** Filtering: lemmas *)

Lemma ne_All_spec (s : cell) : ne_All s = true <-> s <> Some "All".
Proof.
  destruct s as [a|]; simpl.
  - rewrite negb_true_iff. split.
    + intros H E. injection E as ->. discriminate.
    + intros H. apply String.eqb_neq. intros ->. now apply H.
  - split; [discriminate | reflexivity].
Qed.

Lemma eq_scalar_spec (x s : cell) :
  eq_scalar x s = true <-> exists v, s = Some v /\ x = Some v.
Proof.
  destruct x as [a|], s as [b|]; simpl; split;
    try discriminate; try (intros (v & Hs & Hx); congruence).
  - intros H. apply String.eqb_eq in H. subst. now exists b.
  - intros (v & Hs & Hx). apply String.eqb_eq. congruence.
Qed.

Lemma satisfiesb_spec (F : selection) (r : project) :
  satisfiesb F r = true <-> satisfies F r.
Proof.
  unfold satisfiesb, satisfies. rewrite forallb_forall.
  split; intros H p Hp.
  - intros Ha. specialize (H p Hp).
    apply ne_All_spec in Ha. rewrite Ha in H. simpl in H.
    now apply eq_scalar_spec.
  - destruct (ne_All (snd p)) eqn:E; [simpl | reflexivity].
    apply eq_scalar_spec, H; [exact Hp | now apply ne_All_spec].
Qed.

Lemma filter_filter {A} (f g : A -> bool) (l : list A) :
  filter g (filter f l) = filter (fun x => f x && g x) l.
Proof.
  induction l as [|x l IH]; [reflexivity|]. simpl.
  destruct (f x); simpl; [destruct (g x)|]; now rewrite IH.
Qed.

Lemma filter_true {A} (l : list A) : filter (fun _ => true) l = l.
Proof. induction l as [|x l IH]; [reflexivity|]. simpl. now rewrite IH. Qed.

(** A [narrow] step is a filter of the working copy that leaves [df] alone. *)
Lemma narrow_filtered (c : column) (value : cell) (st : frames) :
  filtered_df (narrow c value st)
  = filter (fun r => implb (ne_All value) (eq_scalar (col c r) value))
           (filtered_df st).
Proof.
  unfold narrow. destruct (ne_All value); simpl; [reflexivity|].
  now rewrite filter_true.
Qed.

Lemma narrow_df (c : column) (value : cell) (st : frames) :
  df (narrow c value st) = df st.
Proof. unfold narrow. now destruct (ne_All value). Qed.

Lemma applyFilters_filter (d : table) (F : selection) :
  applyFilters d F = filter (satisfiesb F) d.
Proof.
  unfold applyFilters, filter_frames. rewrite !narrow_filtered. simpl.
  rewrite !filter_filter. apply filter_ext. intros r.
  unfold satisfiesb. simpl. now rewrite andb_true_r, !andb_assoc.
Qed.

Lemma applyFilters_In
  (d : table) (F : selection) (r : project) :
  In r (applyFilters d F) <-> In r d /\ satisfies F r.
Proof. now rewrite applyFilters_filter, filter_In, satisfiesb_spec. Qed.

(** C1. [applyFilters] returns exactly the rows of the table that satisfy
    every active predicate of the filter set (selected value other than
    "All", compared with the row's cell by equality), in the table's order;
    the result is a function of the table and the selections alone; and the
    loaded frame [df] is the same after the narrowing as before it. *)
Theorem applyFilters_conjunctive_subsequence (d : table) (F : selection) :
  applyFilters d F = filter (satisfiesb F) d
  /\ (forall r, In r (applyFilters d F) <-> In r d /\ satisfies F r)
  /\ (forall d' F', d' = d -> F' = F -> applyFilters d' F' = applyFilters d F)
  /\ df (filter_frames d F) = d.
Proof.
  split; [apply applyFilters_filter|]. split; [|split].
  - apply applyFilters_In.
  - intros d' F' -> ->. reflexivity.
  - unfold filter_frames. now rewrite !narrow_df.
Qed.

(** C2. When every predicate of the filter set selects "All", the filtered
    view is the whole table: the same rows in the same order. *)
Theorem applyFilters_all_identity (d : table) (F : selection)
  (Hall : forall p, In p (predicates F) -> snd p = Some "All") :
  applyFilters d F = d.
Proof.
  assert (Hl : selected_location F = Some "All")
    by (apply (Hall (Location, _)); simpl; auto).
  assert (Hs : selected_status F = Some "All")
    by (apply (Hall (Status, _)); simpl; auto).
  assert (Hc : selected_sector F = Some "All")
    by (apply (Hall (Sector, _)); simpl; auto).
  assert (Hy : selected_year F = Some "All")
    by (apply (Hall (Year, _)); simpl; auto 6).
  unfold applyFilters, filter_frames, narrow.
  rewrite Hl, Hs, Hc, Hy. reflexivity.
Qed.

(** ** Lists: distinct values, sorting, sums *)

Section Unique.
Context {A : Type} (eq_dec : forall a b : A, {a = b} + {a <> b}).

Lemma unique_In (l : list A) (x : A) : In x (unique eq_dec l) <-> In x l.
Proof.
  induction l as [|y l IH]; simpl; [tauto|].
  rewrite filter_In, IH.
  destruct (eq_dec y x) as [->|Hne]; [tauto|].
  split; [tauto|]. intros [H|H]; [tauto|]. right. now split.
Qed.

Lemma unique_NoDup (l : list A) : NoDup (unique eq_dec l).
Proof.
  induction l as [|y l IH]; simpl; constructor.
  - rewrite filter_In. intros [_ H]. now destruct (eq_dec y y).
  - now apply NoDup_filter.
Qed.

(** Any duplicate-free list with the same members has as many entries. *)
Lemma unique_length (l s : list A) :
  NoDup s -> (forall x, In x s <-> In x l) ->
  List.length (unique eq_dec l) = List.length s.
Proof.
  intros Hs Hin. apply Permutation_length, NoDup_Permutation.
  - apply unique_NoDup.
  - exact Hs.
  - intros x. now rewrite unique_In, Hin.
Qed.
End Unique.

Section SortBy.
Context {A : Type} (leb : A -> A -> bool).

Lemma insert_by_perm (x : A) (l : list A) :
  Permutation (x :: l) (insert_by leb x l).
Proof.
  induction l as [|y l IH]; simpl; [reflexivity|].
  destruct (leb x y); [reflexivity|].
  rewrite perm_swap. now apply perm_skip.
Qed.

Lemma sort_by_perm (l : list A) : Permutation l (sort_by leb l).
Proof.
  induction l as [|x l IH]; simpl; [reflexivity|].
  rewrite <- insert_by_perm. now apply perm_skip.
Qed.

Hypothesis leb_total : forall a b, leb a b = true \/ leb b a = true.

Lemma insert_by_sorted (x : A) (l : list A) :
  Sorted (fun a b => leb a b = true) l ->
  Sorted (fun a b => leb a b = true) (insert_by leb x l).
Proof.
  induction 1 as [|y l Hl IH Hhd]; simpl; [repeat constructor|].
  destruct (leb x y) eqn:E.
  - repeat constructor; assumption.
  - constructor; [exact IH|].
    assert (Hyx : leb y x = true)
      by (destruct (leb_total x y); congruence).
    destruct Hhd as [|z l Hyz]; simpl; [now constructor|].
    destruct (leb x z); now constructor.
Qed.

Lemma sort_by_sorted (l : list A) :
  Sorted (fun a b => leb a b = true) (sort_by leb l).
Proof.
  induction l as [|x l IH]; simpl; [constructor|].
  now apply insert_by_sorted.
Qed.
End SortBy.

Lemma sort_by_In {A} (leb : A -> A -> bool) (l : list A) (x : A) :
  In x (sort_by leb l) <-> In x l.
Proof.
  split; apply Permutation_in;
    [apply Permutation_sym|]; apply sort_by_perm.
Qed.

Lemma sort_by_NoDup {A} (leb : A -> A -> bool) (l : list A) :
  NoDup l -> NoDup (sort_by leb l).
Proof. apply Permutation_NoDup, sort_by_perm. Qed.

Lemma dropna_In {A} (l : list (option A)) (x : A) :
  In x (dropna l) <-> In (Some x) l.
Proof.
  induction l as [|[a|] l IH]; simpl; [tauto| |].
  - rewrite IH. split; intros [H|H]; auto; left; congruence.
  - rewrite IH. split; [auto|]. intros [H|H]; [discriminate|exact H].
Qed.

Lemma dropna_all_present {A} (l : list (option A)) :
  ~ In None l -> map Some (dropna l) = l.
Proof.
  induction l as [|[a|] l IH]; simpl; intros H; [reflexivity| |].
  - f_equal. apply IH. tauto.
  - exfalso. apply H. now left.
Qed.

Lemma existsb_isna {A} (l : list (option A)) :
  existsb isna l = true <-> In None l.
Proof.
  rewrite existsb_exists. split.
  - intros ([a|] & Hin & H); [discriminate|exact Hin].
  - intros H. now exists None.
Qed.

Lemma existsb_notna {A} (l : list (option A)) :
  existsb notna l = true <-> exists a, In (Some a) l.
Proof.
  rewrite existsb_exists. split.
  - intros ([a|] & Hin & H); [now exists a|discriminate].
  - intros (a & H). now exists (Some a).
Qed.



Lemma list_sum_perm (l l' : list nat) :
  Permutation l l' -> list_sum l = list_sum l'.
Proof. induction 1; simpl; lia. Qed.

Lemma sort_values_desc_nil {A} (key : A -> nat) (out : list A) :
  sort_values_desc key [] out <-> out = [].
Proof.
  unfold sort_values_desc. split.
  - intros [H _]. now apply Permutation_nil.
  - intros ->. split; constructor.
Qed.

Lemma Sorted_weaken {A} (R R' : A -> A -> Prop) (l : list A) :
  (forall a b, R a b -> R' a b) -> Sorted R l -> Sorted R' l.
Proof.
  intros HR. induction 1 as [|a l Hl IH Hhd]; constructor; [exact IH|].
  destruct Hhd; constructor. now apply HR.
Qed.

(** [sort_values] always has a result: the stable sort is one. *)
Lemma sort_values_desc_total {A} (key : A -> nat) (l : list A) :
  sort_values_desc key l (sort_by (fun a b => Nat.leb (key b) (key a)) l).
Proof.
  split; [apply sort_by_perm|].
  apply Sorted_weaken
    with (R := fun a b => Nat.leb (key b) (key a) = true).
  - intros a b. apply Nat.leb_le.
  - apply sort_by_sorted. intros a b. rewrite !Nat.leb_le. lia.
Qed.

Lemma sort_values_desc_sum {A} (key : A -> nat) (f : A -> nat) (l out : list A) :
  sort_values_desc key l out ->
  list_sum (map f out) = list_sum (map f l).
Proof.
  intros [H _]. symmetry. now apply list_sum_perm, Permutation_map.
Qed.

(** ** Metrics *)



(** ** Grouping: every row with a key falls in exactly one group *)

Lemma list_sum_indicator (a : string) (keys : list string) :
  NoDup keys ->
  list_sum (map (fun k => if String.eqb a k then 1 else 0) keys)
  = if in_dec string_dec a keys then 1 else 0.
Proof.
  induction 1 as [|k keys Hk Hnd IH]; [reflexivity|].
  simpl map. simpl list_sum. rewrite IH.
  destruct (String.eqb_spec a k) as [->|Hne].
  - destruct (in_dec string_dec k keys) as [Hin|_]; [contradiction|].
    destruct (in_dec string_dec k (k :: keys)) as [_|Hn]; [reflexivity|].
    exfalso. apply Hn. now left.
  - destruct (in_dec string_dec a keys) as [Hin|Hn];
      destruct (in_dec string_dec a (k :: keys)) as [Hin'|Hn'];
      try reflexivity.
    + exfalso. apply Hn'. now right.
    + destruct Hin' as [->|Hin']; contradiction.
Qed.

Lemma list_sum_map_add {A} (f g : A -> nat) (l : list A) :
  list_sum (map (fun x => f x + g x) l)
  = list_sum (map f l) + list_sum (map g l).
Proof. induction l as [|x l IH]; simpl; lia. Qed.

Lemma list_sum_zero {A} (l : list A) : list_sum (map (fun _ => 0) l) = 0.
Proof. induction l as [|x l IH]; simpl; auto. Qed.

Lemma mask_cons (c : column) (value : cell) (r : project) (t : table) :
  List.length (mask c value (r :: t))
  = (if eq_scalar (col c r) value then 1 else 0) + List.length (mask c value t).
Proof. unfold mask. simpl. now destruct (eq_scalar (col c r) value). Qed.

Lemma mask_keys_sum (c : column) (keys : list string) (t : table) :
  NoDup keys ->
  (forall k, In (Some k) (series c t) -> In k keys) ->
  list_sum (map (fun k => List.length (mask c (Some k) t)) keys)
  = List.length (filter (fun r => notna (col c r)) t).
Proof.
  intros Hnd. induction t as [|r t IH]; intros Hcover.
  - apply list_sum_zero.
  - rewrite (map_ext _ (fun k => (if eq_scalar (col c r) (Some k) then 1 else 0)
                                 + List.length (mask c (Some k) t)))
      by (intros k; apply mask_cons).
    rewrite list_sum_map_add, IH by (intros k Hk; apply Hcover; now right).
    simpl filter. destruct (col c r) as [a|] eqn:E; simpl.
    + rewrite list_sum_indicator by exact Hnd.
      destruct (in_dec string_dec a keys) as [_|Hn]; [reflexivity|].
      exfalso. apply Hn, Hcover. simpl. left. now rewrite E.
    + now rewrite list_sum_zero.
Qed.

Lemma group_keys_NoDup (c : column) (v : table) : NoDup (group_keys c v).
Proof. apply sort_by_NoDup, unique_NoDup. Qed.

Lemma group_keys_In (c : column) (v : table) (k : string) :
  In k (group_keys c v) <-> In (Some k) (series c v).
Proof. unfold group_keys. now rewrite sort_by_In, unique_In, dropna_In. Qed.

Lemma groupby_size_sum (c : column) (v : table) :
  list_sum (map snd (groupby_size c v))
  = List.length (filter (fun r => notna (col c r)) v).
Proof.
  unfold groupby_size. rewrite map_map. simpl.
  apply mask_keys_sum; [apply group_keys_NoDup|].
  intros k. apply group_keys_In.
Qed.

(** ** Cross-tabulation: row totals *)

Lemma get_set_cell (name : string) (x : nat) (cells : list (string * nat)) :
  get_cell name (set_cell name x cells) = Some x.
Proof.
  induction cells as [|[k y] cells IH]; simpl.
  - now rewrite String.eqb_refl.
  - destruct (String.eqb k name) eqn:E; simpl; now rewrite E.
Qed.

Lemma set_cell_fresh (name : string) (x : nat) (cells : list (string * nat)) :
  ~ In name (map fst cells) -> set_cell name x cells = (cells ++ [(name, x)])%list.
Proof.
  induction cells as [|[k y] cells IH]; simpl; intros H; [reflexivity|].
  destruct (String.eqb_spec k name) as [->|Hne]; [tauto|].
  rewrite IH; tauto.
Qed.

Lemma total_projects_add_total (row : count_row) :
  total_projects (fst row, set_cell "Total Projects" (sum_axis1 (snd row))
                                    (snd row))
  = sum_axis1 (snd row).
Proof. unfold total_projects. simpl. now rewrite get_set_cell. Qed.

Lemma filter_all {A} (f : A -> bool) (l : list A) :
  (forall x, In x l -> f x = true) -> filter f l = l.
Proof.
  induction l as [|x l IH]; intros H; [reflexivity|]. simpl.
  rewrite (H x) by now left. f_equal. apply IH. intros y Hy. apply H.
  now right.
Qed.

(** The cells of one cross-tabulation row add up to the rows of the view
    that carry its label (and a value in the other column). *)
Lemma crosstab_row_sum (rows cols : column) (v : table) (l : string) :
  let v' := filter (both_present rows cols) v in
  sum_axis1 (map (fun k => (k, List.length (mask cols (Some k)
                                              (mask rows (Some l) v'))))
                 (group_keys cols v'))
  = List.length (mask rows (Some l) v').
Proof.
  intros v'. unfold sum_axis1. rewrite map_map. simpl.
  rewrite mask_keys_sum.
  - f_equal. apply filter_all. intros r Hr.
    apply filter_In in Hr as [Hr _]. apply filter_In in Hr as [_ Hr].
    now apply andb_true_iff in Hr.
  - apply group_keys_NoDup.
  - intros k Hk. apply group_keys_In. unfold series in *.
    apply in_map_iff in Hk as (r & Hr & Hin). apply in_map_iff.
    exists r. split; [exact Hr|]. now apply filter_In in Hin.
Qed.

Lemma crosstab_totals_sum (rows cols : column) (v : table) :
  list_sum (map total_projects (add_total (crosstab rows cols v)))
  = List.length (filter (both_present rows cols) v).
Proof.
  unfold add_total, crosstab.
  set (v' := filter (both_present rows cols) v).
  rewrite !map_map.
  rewrite (map_ext _ (fun l => List.length (mask rows (Some l) v'))).
  - rewrite mask_keys_sum.
    + apply f_equal, filter_all. intros r Hr.
      apply filter_In in Hr as [_ Hr]. now apply andb_true_iff in Hr.
    + apply group_keys_NoDup.
    + intros k. apply group_keys_In.
  - intros l. rewrite total_projects_add_total. simpl.
    apply crosstab_row_sum.
Qed.

Lemma notna_spec {A} (x : option A) : notna x = true <-> x <> None.
Proof. destruct x; unfold notna; simpl; split; congruence. Qed.

(** ** Grouped counts and cross-tabulations on views with missing values *)

(** C4 (as the code has it). Rows whose grouping cell is empty are left out
    of the grouped count and of the cross-tabulation, and no category stands
    for them: the counts of a grouped count add up to the number of rows that
    have a value in the grouping column, each of its categories is a value
    some row holds, and the [Total Projects] of a cross-tabulation add up to
    the number of rows that have a value in both columns. *)
Theorem grouped_counts_cover_present_rows
  (v : table) (c rows cols : column)
  (out : list (string * nat)) (tab : list count_row)
  (Hout : computeGroupedCount c v out)
  (Htab : computeCrossTab rows cols v tab) :
  list_sum (map snd out)
  = List.length (filter (fun r => notna (col c r)) v)
  /\ (forall k n, In (k, n) out -> In (Some k) (series c v))
  /\ list_sum (map total_projects tab)
     = List.length (filter (both_present rows cols) v).
Proof.
  split; [|split].
  - rewrite (sort_values_desc_sum _ _ _ _ Hout). apply groupby_size_sum.
  - intros k n Hin. destruct Hout as [Hperm _].
    apply Permutation_sym in Hperm.
    apply (Permutation_in _ Hperm) in Hin.
    unfold groupby_size in Hin. apply in_map_iff in Hin as (k' & [= -> _] & Hk).
    now apply group_keys_In.
  - rewrite (sort_values_desc_sum _ _ _ _ Htab). apply crosstab_totals_sum.
Qed.

(** C5. In every cross-tabulation [computeCrossTab] produces, the
    [Total Projects] entry of a row is the sum of the counts that
    [crosstab] gives that row, one per category (and the row is those counts
    followed by the total, unless a category is itself named
    "Total Projects"); when no row of the view has an empty cell in either
    column, the [Total Projects] of all rows add up to the size of the view. *)
Theorem computeCrossTab_totals
  (rows cols : column) (v : table) (tab : list count_row)
  (Htab : computeCrossTab rows cols v tab) :
  (forall row, In row tab ->
     exists counts,
       In (fst row, counts) (crosstab rows cols v)
       /\ get_cell "Total Projects" (snd row) = Some (list_sum (map snd counts))
       /\ (~ In "Total Projects" (map fst counts) ->
           snd row
           = (counts ++ [("Total Projects", list_sum (map snd counts))])%list))
  /\ ((forall r, In r v -> col rows r <> None /\ col cols r <> None) ->
      list_sum (map total_projects tab) = List.length v).
Proof.
  split.
  - intros row Hin. destruct Htab as [Hperm _].
    apply Permutation_sym in Hperm.
    apply (Permutation_in _ Hperm) in Hin.
    unfold add_total in Hin. apply in_map_iff in Hin as ([l counts] & <- & Hin).
    exists counts. simpl. split; [exact Hin|]. split.
    + apply get_set_cell.
    + apply set_cell_fresh.
  - intros Hpresent. rewrite (sort_values_desc_sum _ _ _ _ Htab).
    rewrite crosstab_totals_sum. f_equal. apply filter_all.
    intros r Hr. destruct (Hpresent r Hr) as [H1 H2].
    unfold both_present. apply andb_true_iff. now rewrite !notna_spec.
Qed.

(** The rows of a cross-tabulation come with [Total Projects]
    non-increasing. *)
Lemma computeCrossTab_non_increasing
  (rows cols : column) (v : table) (tab : list count_row) :
  computeCrossTab rows cols v tab ->
  StronglySorted (fun a b => total_projects b <= total_projects a) tab.
Proof.
  intros [_ H]. apply Sorted_StronglySorted; [|exact H].
  intros a b c Hab Hbc. lia.
Qed.

(** ** The empty view *)

(** C7. When the selections match no row, every derived computation has a
    result, and it is the empty one: the metrics are 0 (count, cost total
    and sector count), the grouped sum is the empty sequence, the grouped
    count has exactly one admissible result, the empty sequence, and the
    cross-tabulation has exactly one, with no rows. *)
Theorem empty_view_outputs
  (d : table) (F : selection) (c rows cols : column)
  (Hempty : applyFilters d F = []) :
  computeMetrics (applyFilters d F)
  = {| count := 0; totalCostSum := 0%Z; distinctSectorCount := 0 |}
  /\ groupby_sum c (applyFilters d F) = []
  /\ (forall out, computeGroupedCount c (applyFilters d F) out <-> out = [])
  /\ (forall tab, computeCrossTab rows cols (applyFilters d F) tab <-> tab = []).
Proof.
  rewrite Hempty. split; [reflexivity|]. split; [reflexivity|].
  split; intros out; apply sort_values_desc_nil.
Qed.

(** ** The option lists *)





Lemma map_Some_NoDup {A} (l : list A) : NoDup l -> NoDup (map Some l).
Proof.
  induction 1 as [|x l Hx Hnd IH]; simpl; constructor; [|exact IH].
  rewrite in_map_iff. intros (y & [= ->] & Hy). contradiction.
Qed.



(** With an empty cell next to a text cell, [sorted] raises. *)
Lemma get_filter_options_mixed (d : table) (c : column) (k : string) :
  In None (series c d) -> In (Some k) (series c d) ->
  get_filter_options d c = Raise TypeError.
Proof.
  intros Hn Hk. unfold get_filter_options, sorted.
  assert (E1 : existsb isna (unique cell_eq_dec (series c d)) = true)
    by now rewrite existsb_isna, unique_In.
  assert (E2 : existsb notna (unique cell_eq_dec (series c d)) = true)
    by (rewrite existsb_notna; exists k; now rewrite unique_In).
  now rewrite E1, E2.
Qed.



(** ** The label "All" as a column value *)

Lemma mask_In (c : column) (value : cell) (t : table) (r : project) :
  In r (mask c value t)
  <-> In r t /\ exists k, value = Some k /\ col c r = Some k.
Proof. unfold mask. now rewrite filter_In, eq_scalar_spec. Qed.

Lemma predicates_In (F : selection) (c : column) :
  In c filterable -> In (c, selected F c) (predicates F).
Proof. intros H. unfold predicates. now apply (in_map (fun c => (c, selected F c))). Qed.




(** ** Missing sectors: the metric against the grouped outputs *)

(** C10. On a view with a row whose sector is missing, the sector metric is
    one more than the number of distinct sector strings of the view (the
    size of any duplicate-free list [s] of exactly these strings), while the
    grouped counts over the sector column ([groupby] and [value_counts])
    have one entry per sector string and none for the missing one; so the
    metric exceeds the number of categories of either grouped output. *)
Theorem missing_sector_counted_by_metric_only
  (v : table) (s : list string) (out counts : list (string * nat))
  (Hmissing : In None (series Sector v))
  (Hnodup : NoDup s)
  (Hmembers : forall k, In k s <-> In (Some k) (series Sector v))
  (Hout : computeGroupedCount Sector v out)
  (Hcounts : value_counts Sector v counts) :
  distinctSectorCount (computeMetrics v) = List.length s + 1
  /\ List.length out = List.length s
  /\ List.length counts = List.length s
  /\ (forall k n, In (k, n) out \/ In (k, n) counts ->
                  In (Some k) (series Sector v))
  /\ distinctSectorCount (computeMetrics v) > List.length out
  /\ distinctSectorCount (computeMetrics v) > List.length counts.
Proof.
  assert (Hmetric : distinctSectorCount (computeMetrics v) = List.length s + 1).
  { simpl. rewrite (unique_length cell_eq_dec _ (None :: map Some s)).
    - simpl. rewrite length_map. lia.
    - constructor.
      + rewrite in_map_iff. intros (k & Hk & _). discriminate.
      + now apply map_Some_NoDup.
    - intros [k|]; simpl.
      + rewrite <- Hmembers, in_map_iff. split.
        * intros [H|(k' & [= ->] & H)]; [discriminate|exact H].
        * intros H. right. now exists k.
      + tauto. }
  assert (Hlen_out : List.length out = List.length s).
  { destruct Hout as [Hperm _]. rewrite <- (Permutation_length Hperm).
    unfold groupby_size. rewrite length_map.
    apply Permutation_length, NoDup_Permutation;
      [apply group_keys_NoDup|exact Hnodup|].
    intros k. now rewrite group_keys_In, Hmembers. }
  assert (Hlen_counts : List.length counts = List.length s).
  { destruct Hcounts as [Hperm _]. rewrite <- (Permutation_length Hperm).
    rewrite length_map.
    apply Permutation_length, NoDup_Permutation;
      [apply unique_NoDup|exact Hnodup|].
    intros k. now rewrite unique_In, dropna_In, Hmembers. }
  repeat split; try assumption; try lia.
  intros k n [Hin|Hin].
  - destruct Hout as [Hperm _]. apply Permutation_sym in Hperm.
    apply (Permutation_in _ Hperm) in Hin.
    unfold groupby_size in Hin.
    apply in_map_iff in Hin as (k' & [= -> _] & Hk).
    now apply group_keys_In.
  - destruct Hcounts as [Hperm _]. apply Permutation_sym in Hperm.
    apply (Permutation_in _ Hperm) in Hin.
    apply in_map_iff in Hin as (k' & [= -> _] & Hk).
    now rewrite unique_In, dropna_In in Hk.
Qed.

(** ** Worked examples *)

(** The end-to-end example of the spec: filtering on status "Done" keeps
    rows 1, 2 and 4; the metrics are 3, 35 and 1; the grouped count by
    location is A: 2, B: 1. *)
Example end_to_end_example :
  let v := applyFilters example_table (select_status "Done") in
  map s_no v = [1; 2; 4]%Z
  /\ computeMetrics v
     = {| count := 3; totalCostSum := 35%Z; distinctSectorCount := 1 |}
  /\ location_data v [("A", 2); ("B", 1)].
Proof.
  split; [reflexivity|]. split; [reflexivity|]. sorted_instance.
Qed.

Lemma applyFilters_all_identity_witness :
  (forall p, In p (predicates no_selection) -> snd p = Some "All")
  /\ applyFilters example_table no_selection = example_table.
Proof.
  assert (H : forall p, In p (predicates no_selection) -> snd p = Some "All").
  { intros p [<-|[<-|[<-|[<-|[]]]]]; reflexivity. }
  split; [exact H|]. exact (applyFilters_all_identity example_table _ H).
Defined.


(** C4, the claim as stated, fails: a view whose only row has no location
    has an empty grouped count, and a view where one of two rows has no
    resource-management entry has a cross-tabulation whose totals add up
    to 1; neither output has a category for the missing value. *)
Lemma missing_cells_are_dropped :
  (In None (series Location no_location_table)
   /\ computeGroupedCount Location no_location_table []
   /\ list_sum (map snd (@nil (string * nat)))
      <> List.length no_location_table)
  /\ (In None (series ResourceManagement no_resource_table)
      /\ computeCrossTab Location ResourceManagement no_resource_table
           [("Delhi", [("High", 1); ("Total Projects", 1)])]
      /\ list_sum (map total_projects
                       [("Delhi", [("High", 1); ("Total Projects", 1)])])
         <> List.length no_resource_table).
Proof.
  split; (split; [simpl; tauto|]); (split; [sorted_instance|]);
    vm_compute; discriminate.
Qed.

Lemma grouped_counts_cover_present_rows_witness :
  computeGroupedCount ResourceManagement no_resource_table [("High", 1)]
  /\ computeCrossTab Location ResourceManagement no_resource_table
       [("Delhi", [("High", 1); ("Total Projects", 1)])]
  /\ list_sum (map snd [("High", 1)]) = 1
  /\ list_sum (map total_projects
                   [("Delhi", [("High", 1); ("Total Projects", 1)])]) = 1.
Proof.
  assert (H1 : computeGroupedCount ResourceManagement no_resource_table
                 [("High", 1)]) by sorted_instance.
  assert (H2 : computeCrossTab Location ResourceManagement no_resource_table
                 [("Delhi", [("High", 1); ("Total Projects", 1)])])
    by sorted_instance.
  split; [exact H1|]. split; [exact H2|].
  destruct (grouped_counts_cover_present_rows _ _ _ _ _ _ H1 H2)
    as (Hsum & _ & Htotal).
  split; [exact Hsum | exact Htotal].
Defined.

Lemma computeCrossTab_totals_witness :
  computeCrossTab Location ResourceManagement example_table
    [ ("A", [("High", 1); ("Low", 1); ("Total Projects", 2)]);
      ("B", [("High", 2); ("Low", 0); ("Total Projects", 2)]);
      ("C", [("High", 0); ("Low", 1); ("Total Projects", 1)]) ]
  /\ list_sum (map total_projects
        [ ("A", [("High", 1); ("Low", 1); ("Total Projects", 2)]);
          ("B", [("High", 2); ("Low", 0); ("Total Projects", 2)]);
          ("C", [("High", 0); ("Low", 1); ("Total Projects", 1)]) ])
     = List.length example_table.
Proof.
  assert (H : computeCrossTab Location ResourceManagement example_table
    [ ("A", [("High", 1); ("Low", 1); ("Total Projects", 2)]);
      ("B", [("High", 2); ("Low", 0); ("Total Projects", 2)]);
      ("C", [("High", 0); ("Low", 1); ("Total Projects", 1)]) ])
    by sorted_instance.
  split; [exact H|].
  apply (computeCrossTab_totals _ _ _ _ H).
  intros r [<-|[<-|[<-|[<-|[<-|[]]]]]]; split; discriminate.
Defined.

Lemma empty_view_outputs_witness :
  applyFilters example_table (select_status "Cancelled") = []
  /\ computeMetrics (applyFilters example_table (select_status "Cancelled"))
     = {| count := 0; totalCostSum := 0%Z; distinctSectorCount := 0 |}
  /\ groupby_sum Sector (applyFilters example_table (select_status "Cancelled"))
     = []
  /\ computeCrossTab Location WorkForce
       (applyFilters example_table (select_status "Cancelled")) [].
Proof.
  destruct (empty_view_outputs example_table (select_status "Cancelled")
              Sector Location WorkForce eq_refl) as (Hm & Hs & _ & Ht).
  split; [reflexivity|]. split; [exact Hm|]. split; [exact Hs|].
  now apply Ht.
Defined.





Lemma missing_sector_counted_by_metric_only_witness :
  In None (series Sector sector_view)
  /\ computeGroupedCount Sector sector_view [("Roads", 2); ("roads", 1)]
  /\ value_counts Sector sector_view [("Roads", 2); ("roads", 1)]
  /\ distinctSectorCount (computeMetrics sector_view) = 3
  /\ distinctSectorCount (computeMetrics sector_view)
     > List.length [("Roads", 2); ("roads", 1)].
Proof.
  assert (Hm : In None (series Sector sector_view)) by (simpl; tauto).
  assert (H1 : computeGroupedCount Sector sector_view
                 [("Roads", 2); ("roads", 1)]) by sorted_instance.
  assert (H2 : value_counts Sector sector_view
                 [("Roads", 2); ("roads", 1)]) by sorted_instance.
  assert (Hn : NoDup ["Roads"; "roads"]).
  { repeat constructor; simpl; intuition discriminate. }
  assert (Hs : forall k, In k ["Roads"; "roads"]
                         <-> In (Some k) (series Sector sector_view)).
  { intros k. simpl. split.
    - intros [<-|[<-|[]]]; auto.
    - intros [H|[H|[H|[H|[]]]]]; try discriminate; injection H as <-; auto. }
  destruct (missing_sector_counted_by_metric_only sector_view
              ["Roads"; "roads"] _ _ Hm Hn Hs H1 H2)
    as (Hmetric & _ & _ & _ & Hgt & _).
  split; [exact Hm|]. split; [exact H1|]. split; [exact H2|].
  split; [exact Hmetric | exact Hgt].
Defined.

(** The sorting step leaves the order among equal totals open: for the
    example table, where "A" and "B" both have two projects, the rows may
    come as A, B, C or as B, A, C.  Which of the two the default sorting
    kind gives is decided by the sorting library, not by [main]. *)
Example crosstab_tie_order_open :
  computeCrossTab Location ResourceManagement example_table
    [ ("A", [("High", 1); ("Low", 1); ("Total Projects", 2)]);
      ("B", [("High", 2); ("Low", 0); ("Total Projects", 2)]);
      ("C", [("High", 0); ("Low", 1); ("Total Projects", 1)]) ]
  /\ computeCrossTab Location ResourceManagement example_table
       [ ("B", [("High", 2); ("Low", 0); ("Total Projects", 2)]);
         ("A", [("High", 1); ("Low", 1); ("Total Projects", 2)]);
         ("C", [("High", 0); ("Low", 1); ("Total Projects", 1)]) ].
Proof.
  split; [sorted_instance|].
  split; [vm_compute; apply perm_swap | repeat constructor].
Qed.

(** * Further properties of [main] *)

(** ** Narrowing composes *)

Lemma applyFilters_twice (d : table) (F G : selection) :
  applyFilters (applyFilters d F) G
  = filter (fun r => satisfiesb F r && satisfiesb G r) d.
Proof. now rewrite !applyFilters_filter, filter_filter. Qed.

(** X1. Narrowing a view again by the selections that produced it changes
    nothing. *)
Theorem applyFilters_idempotent (d : table) (F : selection) :
  applyFilters (applyFilters d F) F = applyFilters d F.
Proof.
  rewrite applyFilters_twice, applyFilters_filter. apply filter_ext.
  intros r. now destruct (satisfiesb F r).
Qed.

(** X2. Two sets of selections can be applied one after the other in either
    order: the result is the rows of the table that satisfy both, in the
    table's order. *)
Theorem applyFilters_commute (d : table) (F G : selection) :
  applyFilters (applyFilters d F) G = applyFilters (applyFilters d G) F
  /\ forall r, In r (applyFilters (applyFilters d F) G)
               <-> In r d /\ satisfies F r /\ satisfies G r.
Proof.
  split.
  - rewrite !applyFilters_twice. apply filter_ext. intros r. apply andb_comm.
  - intros r. rewrite !applyFilters_In. tauto.
Qed.

Lemma selected_predicate (F : selection) (p : column * cell) :
  In p (predicates F) <-> In (fst p) filterable /\ snd p = selected F (fst p).
Proof.
  unfold predicates. rewrite in_map_iff. split.
  - intros (c & <- & Hc). simpl. auto.
  - intros [Hc Hp]. exists (fst p). split; [|exact Hc].
    destruct p as [c v]. simpl in *. now subst.
Qed.

(** X3. Selections that keep every active choice of [F] (and may add
    more) give a view that is the narrowing of [F]'s view, so it has no
    more rows than [F]'s view, which has no more rows than the table. *)
Theorem applyFilters_tighten (d : table) (F F' : selection)
  (Hkeep : forall c, In c filterable -> selected F c <> Some "All" ->
                     selected F' c = selected F c) :
  applyFilters d F' = applyFilters (applyFilters d F) F'
  /\ List.length (applyFilters d F') <= List.length (applyFilters d F)
  /\ List.length (applyFilters d F) <= List.length d.
Proof.
  assert (E : applyFilters d F' = applyFilters (applyFilters d F) F').
  { rewrite applyFilters_twice, applyFilters_filter. apply filter_ext.
    intros r. destruct (satisfiesb F' r) eqn:E'; [|now rewrite andb_false_r].
    rewrite andb_true_r. symmetry. apply satisfiesb_spec.
    apply satisfiesb_spec in E'. intros [c v] Hp Hact.
    apply selected_predicate in Hp as [Hc Hv]. simpl in *. subst v.
    unfold active in Hact. simpl in Hact.
    specialize (E' (c, selected F' c) (predicates_In F' c Hc)).
    unfold active, meets in *. simpl in *.
    rewrite (Hkeep c Hc Hact) in E'. now apply E'. }
  split; [exact E|]. split.
  - rewrite E at 1. rewrite (applyFilters_filter (applyFilters d F)).
    apply filter_length_le.
  - rewrite applyFilters_filter. apply filter_length_le.
Qed.

Lemma applyFilters_tighten_witness :
  List.length (applyFilters example_table
                 (set_selected Location (Some "A") (select_status "Done")))
  <= List.length (applyFilters example_table (select_status "Done"))
  /\ List.length (applyFilters example_table (select_status "Done"))
     <= List.length example_table.
Proof.
  apply (applyFilters_tighten example_table (select_status "Done")
           (set_selected Location (Some "A") (select_status "Done"))).
  intros c [<-|[<-|[<-|[<-|[]]]]] H; try reflexivity.
  exfalso. apply H. reflexivity.
Defined.

(** ** What an active selection does to its own column *)

Lemma applyFilters_column (d : table) (F : selection) (c : column) :
  In c filterable -> selected F c <> Some "All" ->
  forall r, In r (applyFilters d F) ->
            exists k, selected F c = Some k /\ col c r = Some k.
Proof.
  intros Hc Hsel r Hr. apply applyFilters_In in Hr as [_ Hsat].
  exact (Hsat (c, selected F c) (predicates_In F c Hc) Hsel).
Qed.

Lemma unique_constant {A} (eq_dec : forall a b : A, {a = b} + {a <> b})
      (x : A) (l : list A) :
  l <> [] -> (forall y, In y l -> y = x) -> unique eq_dec l = [x].
Proof.
  intros Hne Hall. apply Permutation_length_1_inv.
  apply NoDup_Permutation; [repeat constructor; simpl; tauto
                           |apply unique_NoDup|].
  intros y. rewrite unique_In. simpl. split.
  - intros [<-|[]]. destruct l as [|z l]; [contradiction|].
    left. apply Hall. now left.
  - intros Hy. left. symmetry. now apply Hall.
Qed.

(** X4. While a sector is selected, every row of the view holds that
    sector, so the "Number of Sectors" metric is 1 on a view with rows and
    0 on the empty view. *)
Theorem sector_selected_metric (d : table) (F : selection)
  (Hsel : selected_sector F <> Some "All") :
  (forall r, In r (applyFilters d F) -> sector r = selected_sector F)
  /\ (applyFilters d F <> [] ->
      distinctSectorCount (computeMetrics (applyFilters d F)) = 1)
  /\ (applyFilters d F = [] ->
      distinctSectorCount (computeMetrics (applyFilters d F)) = 0).
Proof.
  assert (Hc : In Sector filterable) by in_filterable.
  assert (Hrow : forall r, In r (applyFilters d F) ->
                           sector r = selected_sector F).
  { intros r Hr.
    destruct (applyFilters_column d F Sector Hc Hsel r Hr) as (k & Hk & Hr').
    simpl in *. congruence. }
  split; [exact Hrow|]. split.
  - intros Hne. simpl.
    rewrite (unique_constant cell_eq_dec (selected_sector F)); [reflexivity| |].
    + unfold series. destruct (applyFilters d F); [contradiction|discriminate].
    + intros y Hy. unfold series in Hy.
      apply in_map_iff in Hy as (r & <- & Hr). now apply Hrow.
  - intros ->. reflexivity.
Qed.

Lemma sector_selected_metric_witness :
  selected_sector (set_selected Sector (Some "Roads") no_selection)
  <> Some "All"
  /\ distinctSectorCount
       (computeMetrics
          (applyFilters sector_view
             (set_selected Sector (Some "Roads") no_selection))) = 1.
Proof.
  assert (H : selected_sector (set_selected Sector (Some "Roads") no_selection)
              <> Some "All") by discriminate.
  split; [exact H|].
  apply (sector_selected_metric sector_view _ H). discriminate.
Defined.

(** ** The option lists: when they exist and what they hold *)



Lemma get_filter_options_values (d : table) (c : column) (options : list cell) :
  get_filter_options d c = Ok options ->
  exists values,
    options = Some "All" :: values
    /\ Permutation values (unique cell_eq_dec (series c d)).
Proof.
  unfold get_filter_options, sorted.
  destruct (existsb isna (unique cell_eq_dec (series c d))) eqn:E1;
    destruct (existsb notna (unique cell_eq_dec (series c d))) eqn:E2; simpl;
    try discriminate; intros [= <-]; eexists; (split; [reflexivity|]);
    try reflexivity.
  all: rewrite <- (dropna_all_present (unique cell_eq_dec (series c d))) at 2;
    [apply Permutation_map, Permutation_sym, sort_by_perm|].
  all: intros H; apply existsb_isna in H; congruence.
Qed.

(** X6. When [get_filter_options] returns, the list is "All" followed by
    each distinct value of the column exactly once, so it has one entry
    more than the column has distinct values; for the sector column that is
    the "Number of Sectors" metric of the unfiltered table plus one. *)
Theorem get_filter_options_length
  (d : table) (c : column) (options : list cell)
  (Hok : get_filter_options d c = Ok options) :
  selectbox options 0 = Some "All"
  /\ NoDup (tl options)
  /\ (forall x, In x (tl options) <-> In x (series c d))
  /\ List.length options
     = List.length (unique cell_eq_dec (series c d)) + 1
  /\ (c = Sector ->
      List.length options = distinctSectorCount (computeMetrics d) + 1).
Proof.
  destruct (get_filter_options_values d c options Hok) as (values & -> & Hp).
  split; [reflexivity|]. simpl tl. split; [|split; [|split]].
  - apply (Permutation_NoDup (Permutation_sym Hp)), unique_NoDup.
  - intros x. rewrite <- (unique_In cell_eq_dec (series c d) x).
    split; apply Permutation_in; [exact Hp|now apply Permutation_sym].
  - pose proof (Permutation_length Hp) as HL. cbn [List.length].
    unfold cell in *. lia.
  - intros ->. pose proof (Permutation_length Hp) as HL.
    cbn [List.length computeMetrics distinctSectorCount].
    unfold cell in *. lia.
Qed.

Lemma get_filter_options_length_witness :
  get_filter_options no_sector_table Sector = Ok [Some "All"; None]
  /\ List.length [Some "All"; @None string]
     = distinctSectorCount (computeMetrics no_sector_table) + 1.
Proof.
  split; [reflexivity|].
  exact (proj2 (proj2 (proj2 (proj2
           (get_filter_options_length no_sector_table Sector
              [Some "All"; None] eq_refl)))) eq_refl).
Defined.



Lemma sidebar_run_Ok (d : table) (o : option_lists) :
  sidebar_run d = Ok o ->
  get_filter_options d Location = Ok (location_list o)
  /\ get_filter_options d Status = Ok (status_list o)
  /\ get_filter_options d Sector = Ok (sector_list o)
  /\ get_filter_options d Year = Ok (year_list o).
Proof.
  unfold sidebar_run.
  destruct (get_filter_options d Location); [|discriminate].
  destruct (get_filter_options d Status); [|discriminate].
  destruct (get_filter_options d Sector); [|discriminate].
  destruct (get_filter_options d Year); [|discriminate].
  simpl. intros [= <-]. simpl. auto.
Qed.

Lemma get_filter_options_head (d : table) (c : column) (options : list cell) :
  get_filter_options d c = Ok options -> selectbox options 0 = Some "All".
Proof.
  intros H. destruct (get_filter_options_values d c options H) as (v & -> & _).
  reflexivity.
Qed.

(** X8. On the first run, with every select box at [index=0], the
    selections are all "All" and the view is the whole table; the first
    run raises exactly when the sidebar does. *)
Theorem initial_run_shows_whole_table (d : table) :
  (forall F0, initial_selection d = Ok F0 ->
              F0 = no_selection /\ applyFilters d F0 = d)
  /\ (forall e, initial_selection d = Raise e <-> sidebar_run d = Raise e).
Proof.
  unfold initial_selection. split.
  - intros F0 H. destruct (sidebar_run d) as [o|e] eqn:E; [|discriminate].
    simpl in H. injection H as <-.
    destruct (sidebar_run_Ok d o E) as (H1 & H2 & H3 & H4).
    rewrite (get_filter_options_head _ _ _ H1),
            (get_filter_options_head _ _ _ H2),
            (get_filter_options_head _ _ _ H3),
            (get_filter_options_head _ _ _ H4).
    split; reflexivity.
  - intros e. destruct (sidebar_run d) as [o|e']; simpl; split; intros H;
      try discriminate; congruence.
Qed.

(** ** Choosing an option *)

Lemma applyFilters_single (d : table) (c : column) (s : string) :
  In c filterable -> s <> "All" ->
  applyFilters d (set_selected c (Some s) no_selection) = mask c (Some s) d.
Proof.
  intros Hc Hs. rewrite applyFilters_filter. apply filter_ext. intros r.
  apply String.eqb_neq in Hs.
  destruct Hc as [<-|[<-|[<-|[<-|[]]]]]; unfold satisfiesb; simpl;
    rewrite Hs; simpl; now rewrite ?andb_true_r.
Qed.

(** X9. A text option other than "All", chosen alone, shows exactly the
    rows that hold it, and every such option the sidebar offers shows at
    least one row; a value the column does not hold shows none. *)
Theorem offered_option_selects_rows
  (d : table) (c : column) (s : string)
  (Hc : In c filterable) (Hs : s <> "All") :
  applyFilters d (set_selected c (Some s) no_selection) = mask c (Some s) d
  /\ (applyFilters d (set_selected c (Some s) no_selection) <> []
      <-> In (Some s) (series c d))
  /\ (forall options, get_filter_options d c = Ok options ->
                      In (Some s) options ->
                      applyFilters d (set_selected c (Some s) no_selection)
                      <> []).
Proof.
  assert (E := applyFilters_single d c s Hc Hs).
  assert (Hiff : applyFilters d (set_selected c (Some s) no_selection) <> []
                 <-> In (Some s) (series c d)).
  { rewrite E. unfold series. rewrite in_map_iff. split.
    - intros Hne. destruct (mask c (Some s) d) as [|r t] eqn:Em;
        [contradiction|].
      assert (Hr : In r (mask c (Some s) d)) by (rewrite Em; now left).
      apply mask_In in Hr as [Hr (k & [= <-] & Hk)]. now exists r.
    - intros (r & Hk & Hr) Hnil.
      assert (Hin : In r (mask c (Some s) d))
        by (apply mask_In; split; [exact Hr|now exists s]).
      rewrite Hnil in Hin. contradiction. }
  split; [exact E|]. split; [exact Hiff|].
  intros options Hok Hin. apply Hiff.
  destruct (get_filter_options_values d c options Hok) as (values & -> & Hp).
  destruct Hin as [Hin|Hin]; [congruence|].
  apply (Permutation_in _ Hp) in Hin. now rewrite unique_In in Hin.
Qed.

Lemma offered_option_selects_rows_witness :
  In Status filterable /\ "Done" <> "All"
  /\ map s_no (applyFilters example_table
                 (set_selected Status (Some "Done") no_selection))
     = [1; 2; 4]%Z
  /\ applyFilters example_table
       (set_selected Status (Some "Done") no_selection) <> [].
Proof.
  assert (Hc : In Status filterable) by in_filterable.
  assert (Hs : "Done" <> "All") by discriminate.
  destruct (offered_option_selects_rows example_table Status "Done" Hc Hs)
    as (E & _ & Hopt).
  split; [exact Hc|]. split; [exact Hs|]. split; [now rewrite E|].
  apply (Hopt [Some "All"; Some "Done"; Some "Pending"] eq_refl).
  simpl. auto.
Defined.

(** X10. A column whose cells are all empty offers the options "All" and
    NaN, and choosing NaN shows no row at all, although every row has that
    cell empty: a NaN selection is active and equal to nothing. *)
Theorem nan_option_selects_nothing
  (d : table) (c : column) (F : selection)
  (Hc : In c filterable)
  (Hrows : d <> [])
  (Hempty : forall r, In r d -> col c r = None)
  (Hsel : selected F c = None) :
  get_filter_options d c = Ok [Some "All"; None]
  /\ applyFilters d F = [].
Proof.
  split.
  - unfold get_filter_options, sorted.
    rewrite (unique_constant cell_eq_dec None).
    + reflexivity.
    + unfold series. destruct d; [contradiction|discriminate].
    + intros y Hy. unfold series in Hy.
      apply in_map_iff in Hy as (r & <- & Hr). now apply Hempty.
  - destruct (applyFilters d F) as [|r t] eqn:E; [reflexivity|].
    assert (Hr : In r (applyFilters d F)) by (rewrite E; now left).
    assert (Hact : selected F c <> Some "All") by (rewrite Hsel; discriminate).
    destruct (applyFilters_column d F c Hc Hact r Hr) as (k & Hk & _).
    congruence.
Qed.

Lemma nan_option_selects_nothing_witness :
  get_filter_options no_sector_table Sector = Ok [Some "All"; None]
  /\ applyFilters no_sector_table (set_selected Sector None no_selection) = [].
Proof.
  apply (nan_option_selects_nothing no_sector_table Sector
           (set_selected Sector None no_selection)).
  - in_filterable.
  - discriminate.
  - intros r [<-|[<-|[]]]; reflexivity.
  - reflexivity.
Defined.

(** ** Grouped sums and counts *)








Lemma groupby_size_keys (c : column) (v : table) :
  map fst (groupby_size c v) = group_keys c v.
Proof. unfold groupby_size. rewrite map_map. simpl. apply map_id. Qed.

Lemma groupby_size_In (c : column) (v : table) (k : string) (n : nat) :
  In (k, n) (groupby_size c v)
  <-> In (Some k) (series c v) /\ n = List.length (mask c (Some k) v).
Proof.
  unfold groupby_size. rewrite in_map_iff. split.
  - intros (k' & [= -> <-] & Hk). split; [now apply group_keys_In|reflexivity].
  - intros [Hk ->]. exists k. split; [reflexivity|now apply group_keys_In].
Qed.

Lemma mask_nonempty (c : column) (k : string) (v : table) :
  In (Some k) (series c v) -> 1 <= List.length (mask c (Some k) v).
Proof.
  unfold series. rewrite in_map_iff. intros (r & Hk & Hr).
  assert (Hin : In r (mask c (Some k) v))
    by (apply mask_In; split; [exact Hr|now exists k]).
  destruct (mask c (Some k) v); [contradiction|simpl; lia].
Qed.

Lemma mask_empty (c : column) (k : string) (v : table) :
  ~ In (Some k) (series c v) -> mask c (Some k) v = [].
Proof.
  intros H. destruct (mask c (Some k) v) as [|r t] eqn:E; [reflexivity|].
  exfalso. apply H.
  assert (Hr : In r (mask c (Some k) v)) by (rewrite E; now left).
  apply mask_In in Hr as [Hr (k' & [= <-] & Hk)].
  unfold series. apply in_map_iff. now exists r.
Qed.

(** X12. A grouped count has exactly one entry for each value the column
    holds; the entry's count is the number of rows with that value and is
    at least 1. *)
Theorem computeGroupedCount_entries
  (c : column) (v : table) (out : list (string * nat))
  (Hout : computeGroupedCount c v out) :
  NoDup (map fst out)
  /\ (forall k n, In (k, n) out
                  <-> In (Some k) (series c v)
                      /\ n = List.length (mask c (Some k) v))
  /\ (forall k n, In (k, n) out -> 1 <= n).
Proof.
  destruct Hout as [Hperm _].
  assert (Hin : forall k n, In (k, n) out
                            <-> In (Some k) (series c v)
                                /\ n = List.length (mask c (Some k) v)).
  { intros k n. rewrite <- groupby_size_In. split; apply Permutation_in;
      [now apply Permutation_sym|exact Hperm]. }
  split; [|split; [exact Hin|]].
  - apply (Permutation_NoDup (Permutation_map fst Hperm)).
    rewrite groupby_size_keys. apply group_keys_NoDup.
  - intros k n H. apply Hin in H as [Hk ->]. now apply mask_nonempty.
Qed.

Lemma computeGroupedCount_entries_witness :
  computeGroupedCount Location example_table [("A", 2); ("B", 2); ("C", 1)]
  /\ NoDup (map fst [("A", 2); ("B", 2); ("C", 1)])
  /\ 1 <= 2.
Proof.
  assert (H : computeGroupedCount Location example_table
                [("A", 2); ("B", 2); ("C", 1)]) by sorted_instance.
  destruct (computeGroupedCount_entries _ _ _ H) as (Hn & _ & Hpos).
  split; [exact H|]. split; [exact Hn|].
  apply (Hpos "A"). simpl. auto.
Defined.

(** X13. The first entry of the location chart's data is a maximum: no
    location of the view has more projects than it shows. *)
Theorem location_data_first_is_largest
  (v : table) (out : list (string * nat)) (k : string) (n : nat)
  (Hout : location_data v out)
  (Hfirst : hd_error out = Some (k, n)) :
  n = List.length (mask Location (Some k) v)
  /\ forall k', List.length (mask Location (Some k') v) <= n.
Proof.
  destruct out as [|[k0 n0] rest]; [discriminate|].
  injection Hfirst as -> ->.
  assert (Hperm := proj1 Hout).
  assert (Hs : StronglySorted (fun a b : string * nat => snd b <= snd a)
                              ((k, n) :: rest)).
  { apply Sorted_StronglySorted; [|exact (proj2 Hout)].
    intros a b c Hab Hbc. lia. }
  apply StronglySorted_inv in Hs as [_ Hall]. rewrite Forall_forall in Hall.
  split.
  - assert (Hin : In (k, n) (groupby_size Location v))
      by (apply (Permutation_in _ (Permutation_sym Hperm)); now left).
    now apply groupby_size_In in Hin.
  - intros k'.
    destruct (in_dec cell_eq_dec (Some k') (series Location v)) as [Hk|Hk].
    + assert (Hin : In (k', List.length (mask Location (Some k') v))
                       ((k, n) :: rest)).
      { apply (Permutation_in _ Hperm). apply groupby_size_In. auto. }
      destruct Hin as [[= _ <-]|Hin]; [lia|].
      exact (Hall _ Hin).
    + rewrite mask_empty by exact Hk. simpl. lia.
Qed.

Lemma location_data_first_is_largest_witness :
  location_data example_table [("A", 2); ("B", 2); ("C", 1)]
  /\ List.length (mask Location (Some "C") example_table) <= 2.
Proof.
  assert (H : location_data example_table [("A", 2); ("B", 2); ("C", 1)])
    by sorted_instance.
  split; [exact H|].
  exact (proj2 (location_data_first_is_largest example_table _ "A" 2
                  H eq_refl) "C").
Defined.



Lemma mask_all (c : column) (k : string) (v : table) :
  (forall r, In r v -> col c r = Some k) -> mask c (Some k) v = v.
Proof.
  intros H. apply filter_all. intros r Hr. apply eq_scalar_spec.
  exists k. split; [reflexivity|now apply H].
Qed.

Lemma group_keys_constant (c : column) (k : string) (v : table) :
  v <> [] -> (forall r, In r v -> col c r = Some k) -> group_keys c v = [k].
Proof.
  intros Hne H. unfold group_keys.
  rewrite (unique_constant string_dec k); [reflexivity| |].
  - destruct v as [|r t]; [contradiction|]. simpl.
    rewrite (H r) by now left. discriminate.
  - intros y Hy. apply dropna_In in Hy. unfold series in Hy.
    apply in_map_iff in Hy as (r & Hk & Hr). rewrite (H r Hr) in Hk.
    congruence.
Qed.

(** X15. While a value other than "All" is selected for a column, a
    grouped count of a non-empty view over that column has a single entry:
    the selected value with the number of rows of the view.  With a
    location selected the location chart has one bar. *)
Theorem grouped_count_of_selected_column
  (d : table) (F : selection) (c : column) (out : list (string * nat))
  (Hc : In c filterable)
  (Hsel : selected F c <> Some "All")
  (Hrows : applyFilters d F <> [])
  (Hout : computeGroupedCount c (applyFilters d F) out) :
  exists k, selected F c = Some k
            /\ out = [(k, List.length (applyFilters d F))].
Proof.
  destruct (applyFilters d F) as [|r0 t] eqn:E; [contradiction|].
  assert (Hr0 : In r0 (applyFilters d F)) by (rewrite E; now left).
  destruct (applyFilters_column d F c Hc Hsel r0 Hr0) as (k & Hk & _).
  exists k. split; [exact Hk|].
  assert (Hall : forall r, In r (r0 :: t) -> col c r = Some k).
  { intros r Hr. rewrite <- E in Hr.
    destruct (applyFilters_column d F c Hc Hsel r Hr) as (k' & Hk' & Hr').
    congruence. }
  destruct Hout as [Hperm _]. unfold groupby_size in Hperm.
  rewrite (group_keys_constant c k) in Hperm by (auto; discriminate).
  cbn [map] in Hperm. rewrite (mask_all c k _ Hall) in Hperm.
  now apply Permutation_length_1_inv in Hperm.
Qed.

Lemma grouped_count_of_selected_column_witness :
  exists k, selected (select_location "A") Location = Some k
            /\ [("A", 2)]
               = [(k, List.length
                        (applyFilters example_table (select_location "A")))].
Proof.
  apply (grouped_count_of_selected_column example_table
           (select_location "A") Location [("A", 2)]).
  - in_filterable.
  - discriminate.
  - discriminate.
  - sorted_instance.
Defined.

Lemma unique_length_le {A} (eq_dec : forall a b : A, {a = b} + {a <> b})
      (l : list A) :
  List.length (unique eq_dec l) <= List.length l.
Proof.
  induction l as [|x l IH]; simpl; [lia|].
  pose proof (filter_length_le (fun y => if eq_dec x y then false else true)
                               (unique eq_dec l)).
  lia.
Qed.

(** X16. The "Number of Sectors" metric never exceeds the "Total
    Projects" metric, and it is 0 exactly on the empty view. *)
Theorem sector_count_bounds (v : table) :
  distinctSectorCount (computeMetrics v) <= count (computeMetrics v)
  /\ (distinctSectorCount (computeMetrics v) = 0 <-> v = []).
Proof.
  split.
  - simpl. unfold series.
    pose proof (unique_length_le cell_eq_dec (map (col Sector) v)) as H.
    now rewrite length_map in H.
  - split; [|intros ->; reflexivity].
    destruct v as [|r t]; [reflexivity|]. simpl. discriminate.
Qed.

(** ** The cross-tabulation frame *)

Lemma filter_comm {A} (f g : A -> bool) (l : list A) :
  filter g (filter f l) = filter f (filter g l).
Proof.
  rewrite !filter_filter. apply filter_ext. intros x. apply andb_comm.
Qed.

Lemma get_cell_set_other (name k : string) (x : nat)
      (cells : list (string * nat)) :
  k <> name -> get_cell k (set_cell name x cells) = get_cell k cells.
Proof.
  intros Hk. induction cells as [|[k' y] cells IH]; simpl.
  - apply String.eqb_neq in Hk. rewrite String.eqb_sym in Hk. now rewrite Hk.
  - destruct (String.eqb_spec k' name) as [->|Hne]; simpl.
    + apply String.eqb_neq in Hk. rewrite String.eqb_sym in Hk.
      now rewrite Hk.
    + now rewrite IH.
Qed.

Lemma get_cell_map (f : string -> nat) (k : string) (keys : list string) :
  get_cell k (map (fun k' => (k', f k')) keys)
  = if in_dec string_dec k keys then Some (f k) else None.
Proof.
  induction keys as [|k' keys IH]; [reflexivity|]. simpl get_cell.
  destruct (String.eqb_spec k' k) as [->|Hne].
  - destruct (in_dec string_dec k (k :: keys)) as [_|Hn]; [reflexivity|].
    exfalso. apply Hn. now left.
  - rewrite IH. destruct (in_dec string_dec k keys) as [Hin|Hn];
      destruct (in_dec string_dec k (k' :: keys)) as [Hin'|Hn'];
      try reflexivity.
    + exfalso. apply Hn'. now right.
    + destruct Hin' as [->|Hin']; contradiction.
Qed.

Lemma set_cell_labels (name : string) (x : nat) (cells : list (string * nat)) :
  map fst (set_cell name x cells)
  = if in_dec string_dec name (map fst cells)
    then map fst cells
    else (map fst cells ++ [name])%list.
Proof.
  induction cells as [|[k y] cells IH]; [reflexivity|]. simpl set_cell.
  destruct (String.eqb_spec k name) as [->|Hne]; simpl map.
  - destruct (in_dec string_dec name (name :: map fst cells)) as [_|Hn];
      [reflexivity|]. exfalso. apply Hn. now left.
  - rewrite IH.
    destruct (in_dec string_dec name (map fst cells)) as [Hin|Hn];
      destruct (in_dec string_dec name (k :: map fst cells)) as [Hin'|Hn'];
      try reflexivity.
    + exfalso. apply Hn'. now right.
    + destruct Hin' as [->|Hin']; contradiction.
Qed.

Lemma set_cell_In (name k : string) (x n : nat) (cells : list (string * nat)) :
  In (k, n) (set_cell name x cells) -> n = x \/ In (k, n) cells.
Proof.
  induction cells as [|[k' y] cells IH]; simpl.
  - intros [[= _ <-]|[]]. now left.
  - destruct (String.eqb k' name); simpl.
    + intros [[= _ <-]|H]; auto.
    + intros [H|H]; auto. destruct (IH H); auto.
Qed.

(** The rows of the frame before sorting, with the total written as the
    number of rows of the view that carry the label. *)
Lemma add_total_crosstab_In (rows cols : column) (v : table) (row : count_row) :
  let v' := filter (both_present rows cols) v in
  In row (add_total (crosstab rows cols v))
  <-> In (fst row) (group_keys rows v')
      /\ snd row
         = set_cell "Total Projects"
             (List.length (mask rows (Some (fst row)) v'))
             (map (fun k => (k, List.length
                                  (mask cols (Some k)
                                        (mask rows (Some (fst row)) v'))))
                  (group_keys cols v')).
Proof.
  intros v'. subst v'. unfold add_total, crosstab. rewrite map_map.
  cbn [fst snd]. rewrite in_map_iff. split.
  - intros (l & <- & Hl). cbn [fst snd]. split; [exact Hl|].
    now rewrite (crosstab_row_sum rows cols v l).
  - intros [Hl Hrow]. exists (fst row). split; [|exact Hl].
    destruct row as [l cells]. cbn [fst snd] in *. subst cells.
    now rewrite (crosstab_row_sum rows cols v l).
Qed.

Lemma computeCrossTab_In (rows cols : column) (v : table)
      (tab : list count_row) (row : count_row) :
  computeCrossTab rows cols v tab ->
  (In row tab <-> In row (add_total (crosstab rows cols v))).
Proof.
  intros [Hperm _]. split; apply Permutation_in;
    [now apply Permutation_sym|exact Hperm].
Qed.

Lemma group_keys_present (rows cols : column) (v : table) (l : string) :
  In l (group_keys rows (filter (both_present rows cols) v)) ->
  1 <= List.length (mask rows (Some l) (filter (both_present rows cols) v)).
Proof. intros H. now apply mask_nonempty, group_keys_In. Qed.

(** X17. Every row of a cross-tabulation has the same columns: the
    categories of the view in ascending order, followed by "Total
    Projects" (unless a category already has that name).  The row labels
    are distinct. *)
Theorem computeCrossTab_columns
  (rows cols : column) (v : table) (tab : list count_row)
  (Htab : computeCrossTab rows cols v tab) :
  let categories := group_keys cols (filter (both_present rows cols) v) in
  (forall row, In row tab ->
     map fst (snd row)
     = if in_dec string_dec "Total Projects" categories
       then categories
       else (categories ++ ["Total Projects"])%list)
  /\ ascending categories
  /\ NoDup (map fst tab).
Proof.
  intros categories. split; [|split].
  - intros row Hrow. apply (computeCrossTab_In _ _ _ _ _ Htab) in Hrow.
    apply add_total_crosstab_In in Hrow as [_ ->].
    rewrite set_cell_labels, map_map. simpl. now rewrite map_id.
  - apply sort_by_sorted, String.leb_total.
  - destruct Htab as [Hperm _].
    apply (Permutation_NoDup (Permutation_map fst Hperm)).
    unfold add_total, crosstab. rewrite !map_map. simpl. rewrite map_id.
    apply group_keys_NoDup.
Qed.

Lemma computeCrossTab_columns_witness :
  computeCrossTab Location ResourceManagement example_table
    [ ("A", [("High", 1); ("Low", 1); ("Total Projects", 2)]);
      ("B", [("High", 2); ("Low", 0); ("Total Projects", 2)]);
      ("C", [("High", 0); ("Low", 1); ("Total Projects", 1)]) ]
  /\ NoDup (map fst
       [ ("A", [("High", 1); ("Low", 1); ("Total Projects", 2)]);
         ("B", [("High", 2); ("Low", 0); ("Total Projects", 2)]);
         ("C", [("High", 0); ("Low", 1); ("Total Projects", 1)]) ]).
Proof.
  assert (H : computeCrossTab Location ResourceManagement example_table
    [ ("A", [("High", 1); ("Low", 1); ("Total Projects", 2)]);
      ("B", [("High", 2); ("Low", 0); ("Total Projects", 2)]);
      ("C", [("High", 0); ("Low", 1); ("Total Projects", 1)]) ])
    by sorted_instance.
  split; [exact H|].
  exact (proj2 (proj2 (computeCrossTab_columns _ _ _ _ H))).
Defined.

(** X18. In a cross-tabulation, the "Total Projects" of a row is the
    number of rows of the view that carry the row's label and have a value
    in the other column; it is at least 1, and no cell of the row exceeds
    it.  There is a row for exactly the labels such rows of the view carry. *)
Theorem computeCrossTab_rows
  (rows cols : column) (v : table) (tab : list count_row)
  (Htab : computeCrossTab rows cols v tab) :
  let v' := filter (both_present rows cols) v in
  (forall row, In row tab ->
     total_projects row = List.length (mask rows (Some (fst row)) v')
     /\ 1 <= total_projects row
     /\ forall k n, In (k, n) (snd row) -> n <= total_projects row)
  /\ (forall l, In l (map fst tab) <-> In (Some l) (series rows v')).
Proof.
  intros v'. split.
  - intros row Hrow. apply (computeCrossTab_In _ _ _ _ _ Htab) in Hrow.
    apply add_total_crosstab_In in Hrow as [Hl Hcells]. fold v' in Hl, Hcells.
    cbv zeta in Hl, Hcells.
    assert (Ht : total_projects row
                 = List.length (mask rows (Some (fst row)) v')).
    { unfold total_projects. rewrite Hcells. now rewrite get_set_cell. }
    split; [exact Ht|]. rewrite Ht. split.
    + now apply group_keys_present.
    + intros k n Hin. rewrite Hcells in Hin.
      apply set_cell_In in Hin as [->|Hin]; [lia|].
      apply in_map_iff in Hin as (k' & [= _ <-] & _).
      apply filter_length_le.
  - intros l. rewrite <- group_keys_In.
    destruct Htab as [Hperm _].
    assert (E : map fst (add_total (crosstab rows cols v))
                = group_keys rows v').
    { unfold add_total, crosstab. rewrite !map_map. simpl. apply map_id. }
    rewrite <- E. split; apply Permutation_in; apply Permutation_map;
      [now apply Permutation_sym|exact Hperm].
Qed.

Lemma computeCrossTab_rows_witness :
  computeCrossTab Location ResourceManagement no_resource_table
    [("Delhi", [("High", 1); ("Total Projects", 1)])]
  /\ (In "Pune" (map fst [("Delhi", [("High", 1); ("Total Projects", 1)])])
      <-> In (Some "Pune")
             (series Location
                (filter (both_present Location ResourceManagement)
                        no_resource_table))).
Proof.
  assert (H : computeCrossTab Location ResourceManagement no_resource_table
                [("Delhi", [("High", 1); ("Total Projects", 1)])])
    by sorted_instance.
  split; [exact H|].
  exact (proj2 (computeCrossTab_rows _ _ _ _ H) "Pune").
Defined.

Lemma mask_comm (c1 c2 : column) (a b : cell) (t : table) :
  mask c1 a (mask c2 b t) = mask c2 b (mask c1 a t).
Proof. unfold mask. apply filter_comm. Qed.

Lemma mask_subset (c : column) (a : cell) (k : string) (c' : column)
      (t : table) :
  In (Some k) (series c' (mask c a t)) -> In (Some k) (series c' t).
Proof.
  unfold series. rewrite !in_map_iff. intros (r & Hk & Hr).
  exists r. split; [exact Hk|]. now apply mask_In in Hr.
Qed.

(** The count a row of the unsorted frame shows for a category. *)
Lemma cell_count_add_total (rows cols : column) (v : table)
      (k : string) (row : count_row) :
  k <> "Total Projects" ->
  In row (add_total (crosstab rows cols v)) ->
  cell_count k row
  = List.length (mask cols (Some k)
                   (mask rows (Some (fst row))
                         (filter (both_present rows cols) v))).
Proof.
  intros Hk Hrow. apply add_total_crosstab_In in Hrow as [_ Hcells].
  cbv zeta in Hcells. unfold cell_count. rewrite Hcells.
  rewrite get_cell_set_other by exact Hk.
  rewrite (get_cell_map
             (fun k => List.length
                         (mask cols (Some k)
                            (mask rows (Some (fst row))
                               (filter (both_present rows cols) v))))).
  destruct (in_dec string_dec k
              (group_keys cols (filter (both_present rows cols) v)))
    as [_|Hn]; [reflexivity|].
  rewrite mask_empty; [reflexivity|].
  intros H. apply Hn, group_keys_In. now apply mask_subset in H.
Qed.

(** X19. A cell of a cross-tabulation is the number of rows of the view
    with the row's label and the column's category; every category has a
    cell in every row, holding 0 when the pair does not occur. *)
Theorem computeCrossTab_cells
  (rows cols : column) (v : table) (tab : list count_row)
  (row : count_row) (k : string)
  (Htab : computeCrossTab rows cols v tab)
  (Hrow : In row tab)
  (Hk : k <> "Total Projects")
  (Hcat : In (Some k) (series cols (filter (both_present rows cols) v))) :
  get_cell k (snd row)
  = Some (List.length
            (mask cols (Some k)
               (mask rows (Some (fst row))
                     (filter (both_present rows cols) v)))).
Proof.
  apply (computeCrossTab_In _ _ _ _ _ Htab) in Hrow.
  apply add_total_crosstab_In in Hrow as [_ Hcells]. cbv zeta in Hcells.
  rewrite Hcells, get_cell_set_other by exact Hk.
  rewrite (get_cell_map
             (fun k => List.length
                         (mask cols (Some k)
                            (mask rows (Some (fst row))
                               (filter (both_present rows cols) v))))).
  destruct (in_dec string_dec k
              (group_keys cols (filter (both_present rows cols) v)))
    as [_|Hn]; [reflexivity|].
  exfalso. now apply Hn, group_keys_In.
Qed.

Lemma computeCrossTab_cells_witness :
  get_cell "High" (snd ("C", [("High", 0); ("Low", 1); ("Total Projects", 1)]))
  = Some (List.length
            (mask ResourceManagement (Some "High")
               (mask Location (Some (fst ("C", [("High", 0); ("Low", 1);
                                                ("Total Projects", 1)])))
                  (filter (both_present Location ResourceManagement)
                          example_table)))).
Proof.
  apply (computeCrossTab_cells Location ResourceManagement example_table
    [ ("A", [("High", 1); ("Low", 1); ("Total Projects", 2)]);
      ("B", [("High", 2); ("Low", 0); ("Total Projects", 2)]);
      ("C", [("High", 0); ("Low", 1); ("Total Projects", 1)]) ]).
  - sorted_instance.
  - simpl. auto.
  - discriminate.
  - simpl. auto.
Defined.

Lemma map_fst_apply (g : string -> nat) (L : list count_row) :
  map (fun row : count_row => g (fst row)) L = map g (map fst L).
Proof. now rewrite map_map. Qed.

Lemma add_total_crosstab_labels (rows cols : column) (v : table) :
  map fst (add_total (crosstab rows cols v))
  = group_keys rows (filter (both_present rows cols) v).
Proof. unfold add_total, crosstab. rewrite !map_map. simpl. apply map_id. Qed.

(** X20. Each category column of a cross-tabulation adds up to the number
    of rows of the view that hold the category (and have a row label). *)
Theorem computeCrossTab_column_sum
  (rows cols : column) (v : table) (tab : list count_row) (k : string)
  (Htab : computeCrossTab rows cols v tab)
  (Hk : k <> "Total Projects") :
  list_sum (map (cell_count k) tab)
  = List.length (mask cols (Some k) (filter (both_present rows cols) v)).
Proof.
  rewrite (sort_values_desc_sum _ _ _ _ Htab).
  set (v' := filter (both_present rows cols) v).
  rewrite (map_ext_in _ (fun row : count_row =>
                           List.length (mask rows (Some (fst row))
                                             (mask cols (Some k) v')))).
  - rewrite (map_fst_apply
               (fun l => List.length (mask rows (Some l)
                                           (mask cols (Some k) v')))).
    rewrite add_total_crosstab_labels. fold v'. rewrite mask_keys_sum.
    + f_equal. apply filter_all. intros r Hr.
      apply mask_In in Hr as [Hr _]. apply filter_In in Hr as [_ Hr].
      now apply andb_true_iff in Hr.
    + apply group_keys_NoDup.
    + intros l Hl. apply group_keys_In. now apply mask_subset in Hl.
  - intros row Hrow. rewrite mask_comm.
    now apply cell_count_add_total.
Qed.

Lemma computeCrossTab_column_sum_witness :
  list_sum (map (cell_count "High")
    [ ("A", [("High", 1); ("Low", 1); ("Total Projects", 2)]);
      ("B", [("High", 2); ("Low", 0); ("Total Projects", 2)]);
      ("C", [("High", 0); ("Low", 1); ("Total Projects", 1)]) ])
  = List.length (mask ResourceManagement (Some "High")
                   (filter (both_present Location ResourceManagement)
                           example_table)).
Proof.
  apply (computeCrossTab_column_sum Location ResourceManagement example_table).
  - sorted_instance.
  - discriminate.
Defined.

(** ** The cross-tabulation against the location chart *)

Lemma dropna_series_present (c : column) (v : table) :
  dropna (series c (filter (fun r => notna (col c r)) v))
  = dropna (series c v).
Proof.
  induction v as [|r v IH]; [reflexivity|]. simpl.
  destruct (col c r) as [a|] eqn:E; simpl; rewrite ?E; simpl; now rewrite IH.
Qed.

Lemma mask_present (c : column) (l : string) (v : table) :
  mask c (Some l) (filter (fun r => notna (col c r)) v) = mask c (Some l) v.
Proof.
  unfold mask. rewrite filter_filter. apply filter_ext. intros r.
  now destruct (col c r).
Qed.

Lemma add_total_crosstab_totals (rows cols : column) (v : table) :
  map (fun row : count_row => (fst row, total_projects row))
      (add_total (crosstab rows cols v))
  = map (fun l => (l, List.length
                        (mask rows (Some l)
                              (filter (both_present rows cols) v))))
        (group_keys rows (filter (both_present rows cols) v)).
Proof.
  unfold add_total, crosstab. rewrite !map_map. apply map_ext. intros l.
  rewrite total_projects_add_total. cbn [fst snd]. f_equal.
  apply (crosstab_row_sum rows cols v l).
Qed.

(** X21. Every row of the cross-tabulation by location is a bar of the
    location chart, and its "Total Projects" is at most the bar's count;
    when the other column has no empty cell the two show the same
    locations with the same numbers. *)
Theorem crosstab_totals_against_grouped_count
  (rows cols : column) (v : table)
  (tab : list count_row) (out : list (string * nat))
  (Htab : computeCrossTab rows cols v tab)
  (Hout : computeGroupedCount rows v out) :
  (forall row, In row tab ->
     exists n, In (fst row, n) out /\ total_projects row <= n)
  /\ ((forall r, In r v -> col cols r <> None) ->
      Permutation (map (fun row : count_row => (fst row, total_projects row))
                       tab) out).
Proof.
  split.
  - intros row Hrow. apply (computeCrossTab_In _ _ _ _ _ Htab) in Hrow.
    apply add_total_crosstab_In in Hrow as [Hl Hcells].
    cbv zeta in Hl, Hcells.
    exists (List.length (mask rows (Some (fst row)) v)). split.
    + apply (Permutation_in _ (proj1 Hout)). apply groupby_size_In.
      split; [|reflexivity]. apply group_keys_In in Hl.
      unfold series in *. apply in_map_iff in Hl as (r & Hk & Hr).
      apply in_map_iff. exists r. split; [exact Hk|].
      now apply filter_In in Hr.
    + unfold total_projects. rewrite Hcells, get_set_cell.
      unfold mask. rewrite filter_comm. apply filter_length_le.
  - intros Hc.
    assert (Ev : filter (both_present rows cols) v
                 = filter (fun r => notna (col rows r)) v).
    { apply filter_ext_in. intros r Hr. unfold both_present.
      assert (H : notna (col cols r) = true) by now apply notna_spec, Hc.
      now rewrite H, andb_true_r. }
    rewrite <- (Permutation_map
                  (fun row : count_row => (fst row, total_projects row))
                  (proj1 Htab)).
    rewrite add_total_crosstab_totals, Ev.
    rewrite <- (proj1 Hout). unfold groupby_size, group_keys.
    rewrite dropna_series_present.
    erewrite map_ext; [reflexivity|].
    intros l. simpl. now rewrite mask_present.
Qed.

Lemma crosstab_totals_against_grouped_count_witness :
  computeCrossTab Location ResourceManagement no_resource_table
    [("Delhi", [("High", 1); ("Total Projects", 1)])]
  /\ computeGroupedCount Location no_resource_table
       [("Delhi", 1); ("Pune", 1)]
  /\ exists n, In ("Delhi", n) [("Delhi", 1); ("Pune", 1)] /\ 1 <= n.
Proof.
  assert (H1 : computeCrossTab Location ResourceManagement no_resource_table
                 [("Delhi", [("High", 1); ("Total Projects", 1)])])
    by sorted_instance.
  assert (H2 : computeGroupedCount Location no_resource_table
                 [("Delhi", 1); ("Pune", 1)]) by sorted_instance.
  split; [exact H1|]. split; [exact H2|].
  apply (proj1 (crosstab_totals_against_grouped_count _ _ _ _ _ H1 H2)
               ("Delhi", [("High", 1); ("Total Projects", 1)])).
  now left.
Defined.
